(** * react-parking-app: the booking store, the status projection, the
      search filter and the persistence of [src/App.tsx]

    The component [ParkingApp] keeps its state in React hooks.  Here the
    hooks become the fields of a record [AppState] and every event handler
    becomes a function from state to state; what a handler reads from
    outside the state ([Date.now()], the answer of [confirm], the draws of
    [Math.random()]) is an explicit argument.

    Conventions:
    - a JS [number] is a [Z]: identifiers, timestamps and durations are
      integers in the runs considered (fractional hours, [NaN] and the
      infinities are outside the model);
    - a JS string is a [string], and [toLowerCase] acts on the letters
      A-Z (the texts considered are ASCII);
    - the object [status: Record<string, Booking>] used as a dictionary
      is a [gmap string Booking.t]; slot identifiers are of the form
      [P<n>] and never collide with a member of [Object.prototype]. *)

From Stdlib Require Import ZArith QArith String Ascii List.
From stdpp Require Import base option list gmap strings pretty.

Local Open Scope string_scope.
Local Open Scope Z_scope.
Local Open Scope list_scope.

(** ** Data model *)

Inductive SizeClass := large | normal.

Module Slot.
Record t := mk {
  id : string;
  row : Z;
  col : Z;
  width : Z;
  height : Z;
  size : SizeClass
}.
End Slot.

Module Booking.
Record t := mk {
  id : string;
  slotId : string;
  name : string;
  plate : string;
  start : Z;
  durationMs : Z
}.
End Booking.

Definition STORAGE_KEY_SLOTS : string := "parking_slots_v1".
Definition STORAGE_KEY_BOOKINGS : string := "parking_bookings_v1".

(** The hooks of [ParkingApp]. *)
Record AppState := mkApp {
  slots : list Slot.t;
  bookings : list Booking.t;
  selectedSlot : option Slot.t;
  showForm : bool;
  query : string;
  detailBooking : option Booking.t
}.

Definition setBookings (f : list Booking.t -> list Booking.t) (st : AppState) : AppState :=
  mkApp (slots st) (f (bookings st)) (selectedSlot st) (showForm st) (query st)
        (detailBooking st).

Definition setSelectedSlot (s : option Slot.t) (st : AppState) : AppState :=
  mkApp (slots st) (bookings st) s (showForm st) (query st) (detailBooking st).

Definition setShowForm (b : bool) (st : AppState) : AppState :=
  mkApp (slots st) (bookings st) (selectedSlot st) b (query st) (detailBooking st).

Definition setQuery (q : string) (st : AppState) : AppState :=
  mkApp (slots st) (bookings st) (selectedSlot st) (showForm st) q (detailBooking st).

Definition setDetailBooking (d : option Booking.t) (st : AppState) : AppState :=
  mkApp (slots st) (bookings st) (selectedSlot st) (showForm st) (query st) d.

(** ** Status projection

    [bookings.forEach((bk) => (status[bk.slotId] = bk))] on an empty
    object: a left fold of insertions. *)
Definition assign (status : gmap string Booking.t) (bk : Booking.t)
    : gmap string Booking.t :=
  <[Booking.slotId bk := bk]> status.

Definition slotStatusOf (bs : list Booking.t) : gmap string Booking.t :=
  foldl assign ∅ bs.

Definition slotStatus (st : AppState) : gmap string Booking.t :=
  slotStatusOf (bookings st).

(** ** Booking store *)

Definition openBooking (slot : Slot.t) (st : AppState) : AppState :=
  setShowForm true (setSelectedSlot (Some slot) st).

(** [now] is the value of [Date.now()] read by the handler. *)
Definition handleBook (now : Z) (name plate : string) (durationHours : Z)
    (st : AppState) : AppState :=
  match selectedSlot st with
  | None => st
  | Some sel =>
      let booking :=
        Booking.mk ("B" +:+ pretty now) (Slot.id sel) name plate now
                   (durationHours * 60 * 60 * 1000) in
      setSelectedSlot None
        (setShowForm false
           (setBookings (fun b => b ++ [booking]) st))
  end.

(** [confirmed] is the answer of the blocking [confirm] dialog. *)
Definition endSession (confirmed : bool) (id : string) (st : AppState) : AppState :=
  if negb confirmed then st
  else
    let st1 :=
      setBookings (filter (fun x => Booking.id x ≠ id)) st in
    match detailBooking st with
    | Some d => if decide (Booking.id d = id) then setDetailBooking None st1 else st1
    | None => st1
    end.

(** ** Duration rendering *)

Definition formatMs (ms : Z) : string :=
  let s := Z.abs (ms / 1000) in
  let h := s / 3600 in
  let m := Z.rem s 3600 / 60 in
  let sec := Z.rem s 60 in
  pretty h +:+ "h " +:+ pretty m +:+ "m " +:+ pretty sec +:+ "s".

(** ** Search filter *)

(** [String.prototype.toLowerCase], on the letters A-Z. *)
Definition lowerChar (c : ascii) : ascii :=
  let n := N_of_ascii c in
  if ((65 <=? n)%N && (n <=? 90)%N)%bool then ascii_of_N (n + 32) else c.

Fixpoint toLowerCase (s : string) : string :=
  match s with
  | EmptyString => EmptyString
  | String c s' => String (lowerChar c) (toLowerCase s')
  end.

Fixpoint startsWith (s q : string) : bool :=
  match q, s with
  | EmptyString, _ => true
  | String _ _, EmptyString => false
  | String b q', String a s' => (Ascii.eqb a b && startsWith s' q')%bool
  end.

(** [s.includes(q)]: [q] occurs in [s] at some position. *)
Fixpoint includes (s q : string) : bool :=
  (startsWith s q ||
   match s with
   | EmptyString => false
   | String _ s' => includes s' q
   end)%bool.

(** The callback of [slots.filter].  Optional chaining on an absent
    booking yields [undefined], which the filter reads as false. *)
Definition matchesQuery (status : gmap string Booking.t) (query : string)
    (s : Slot.t) : bool :=
  let b := status !! Slot.id s in
  let q := toLowerCase query in
  (includes (toLowerCase (Slot.id s)) q ||
   from_option (fun bk => includes (toLowerCase (Booking.plate bk)) q) false b ||
   from_option (fun bk => includes (toLowerCase (Booking.name bk)) q) false b)%bool.

Definition filteredSlots (st : AppState) : list Slot.t :=
  List.filter (matchesQuery (slotStatus st) (query st)) (slots st).

(** ** Slot grid *)

(** [rand k] is the value of the [k]-th call of [Math.random()]
    (counting from 0).  The two loops thread the slot array and the
    counter [id]. *)
Definition makeDefaultSlots (rand : nat -> Q) (rows cols : nat) : list Slot.t :=
  fst
    (foldl
       (fun acc r =>
          foldl
            (fun '(slots, id) c =>
               ((slots ++
                 [Slot.mk ("P" +:+ pretty (Z.of_nat id)) (Z.of_nat r) (Z.of_nat c)
                          90 150
                          (if Qle_bool (rand (id - 1)%nat) (8 # 10) then normal
                           else large)])%list,
                S id))
            acc (seq 0 cols))
       ([], 1%nat) (seq 0 rows)).

(** ** Persistent storage

    [localStorage] maps a key to a text.  The texts written and read by
    the program are JSON texts, produced by [JSON.stringify] and consumed
    by [JSON.parse]; the store is modelled as holding the JSON document
    that the text denotes. *)
#[warnings="-register-all"]
Inductive json :=
| JNull
| JBool (b : bool)
| JNum (n : Z)
| JStr (s : string)
| JArr (items : list json)
| JObj (fields : list (string * json)).

Abbreviation Storage := (gmap string json).

(** Property read [o.k] on a parsed object. *)
Definition getField (k : string) (o : json) : option json :=
  match o with
  | JObj fields => snd <$> List.find (fun kv => String.eqb (fst kv) k) fields
  | _ => None
  end.

Definition asString (j : json) : option string :=
  match j with JStr s => Some s | _ => None end.

Definition asNumber (j : json) : option Z :=
  match j with JNum n => Some n | _ => None end.

Definition asArray (j : json) : option (list json) :=
  match j with JArr l => Some l | _ => None end.

Definition sizeToJson (c : SizeClass) : json :=
  match c with large => JStr "large" | normal => JStr "normal" end.

Definition sizeOfJson (j : json) : option SizeClass :=
  match j with
  | JStr s => if String.eqb s "large" then Some large
              else if String.eqb s "normal" then Some normal else None
  | _ => None
  end.

(** [JSON.stringify] lists the own properties of an object in the order
    of their creation: the order of the object literals of
    [makeDefaultSlots] and [handleBook]. *)
Definition slotToJson (s : Slot.t) : json :=
  JObj [("id", JStr (Slot.id s)); ("row", JNum (Slot.row s));
        ("col", JNum (Slot.col s)); ("width", JNum (Slot.width s));
        ("height", JNum (Slot.height s)); ("size", sizeToJson (Slot.size s))].

Definition bookingToJson (b : Booking.t) : json :=
  JObj [("id", JStr (Booking.id b)); ("slotId", JStr (Booking.slotId b));
        ("name", JStr (Booking.name b)); ("plate", JStr (Booking.plate b));
        ("start", JNum (Booking.start b));
        ("durationMs", JNum (Booking.durationMs b))].

(** The parsed document read at the type [Slot] (resp. [Booking]) that
    the program gives it.  [None]: the document is not of that type,
    which the program does not check. *)
Definition slotOfJson (o : json) : option Slot.t :=
  id ← getField "id" o ≫= asString;
  row ← getField "row" o ≫= asNumber;
  col ← getField "col" o ≫= asNumber;
  width ← getField "width" o ≫= asNumber;
  height ← getField "height" o ≫= asNumber;
  size ← getField "size" o ≫= sizeOfJson;
  Some (Slot.mk id row col width height size).

Definition bookingOfJson (o : json) : option Booking.t :=
  id ← getField "id" o ≫= asString;
  slotId ← getField "slotId" o ≫= asString;
  name ← getField "name" o ≫= asString;
  plate ← getField "plate" o ≫= asString;
  start ← getField "start" o ≫= asNumber;
  durationMs ← getField "durationMs" o ≫= asNumber;
  Some (Booking.mk id slotId name plate start durationMs).

Definition stringifySlots (l : list Slot.t) : json := JArr (slotToJson <$> l).
Definition stringifyBookings (l : list Booking.t) : json := JArr (bookingToJson <$> l).

Definition parseSlots (raw : json) : option (list Slot.t) :=
  asArray raw ≫= mapM slotOfJson.
Definition parseBookings (raw : json) : option (list Booking.t) :=
  asArray raw ≫= mapM bookingOfJson.

(** The two lazy initialisers of [useState]. *)
Definition initSlots (rand : nat -> Q) (storage : Storage) : option (list Slot.t) :=
  match storage !! STORAGE_KEY_SLOTS with
  | Some raw => parseSlots raw
  | None => Some (makeDefaultSlots rand 4 6)
  end.

Definition initBookings (storage : Storage) : option (list Booking.t) :=
  match storage !! STORAGE_KEY_BOOKINGS with
  | Some raw => parseBookings raw
  | None => Some []
  end.

Definition initState (rand : nat -> Q) (storage : Storage) : option AppState :=
  sl ← initSlots rand storage;
  bs ← initBookings storage;
  Some (mkApp sl bs None false "" None).

(** The effect on [[bookings]]: the only write to the store. *)
Definition persist (st : AppState) (storage : Storage) : Storage :=
  <[STORAGE_KEY_BOOKINGS := stringifyBookings (bookings st)]> storage.

(** ** The events of the rendered page *)

Inductive Event :=
| SearchInput (q : string)
| SlotClick (i : nat)
| FormSubmit (now : Z) (name plate : string) (durationHours : Z)
| FormCancel
| CardDetail (i : nat)
| CardEnd (i : nat) (confirmed : bool)
| DetailEnd (confirmed : bool)
| DetailClose
| Tick.

(** The booking form is rendered under [showForm && selectedSlot]. *)
Definition formShown (st : AppState) : bool :=
  (showForm st && bool_decide (is_Some (selectedSlot st)))%bool.

(** One event on the page drawn from [st]; [None] when the element that
    would raise it is not drawn.  [SlotClick i] is a click on the [i]-th
    rectangle of [filteredSlots.map], [CardDetail i] and [CardEnd i] on
    the buttons of the [i]-th card of [bookings.map], [DetailEnd] and
    [DetailClose] on the buttons of the detail card. *)
Definition step (ev : Event) (st : AppState) : option AppState :=
  match ev with
  | SearchInput q => Some (setQuery q st)
  | SlotClick i =>
      slot ← filteredSlots st !! i;
      Some (match slotStatus st !! Slot.id slot with
            | Some bk => setDetailBooking (Some bk) st
            | None => openBooking slot st
            end)
  | FormSubmit now name plate durationHours =>
      if formShown st then Some (handleBook now name plate durationHours st)
      else None
  | FormCancel =>
      if formShown st then Some (setShowForm false st) else None
  | CardDetail i =>
      bk ← bookings st !! i; Some (setDetailBooking (Some bk) st)
  | CardEnd i confirmed =>
      bk ← bookings st !! i; Some (endSession confirmed (Booking.id bk) st)
  | DetailEnd confirmed =>
      bk ← detailBooking st; Some (endSession confirmed (Booking.id bk) st)
  | DetailClose =>
      _ ← detailBooking st; Some (setDetailBooking None st)
  | Tick => Some (setBookings (fun b => b) st)
  end.

Fixpoint run (evs : list Event) (st : AppState) : option AppState :=
  match evs with
  | [] => Some st
  | ev :: evs' => step ev st ≫= run evs'
  end.

(** A session: mount on the store found, handle the events, and leave
    the store as the effect wrote it last. *)
Definition session (rand : nat -> Q) (evs : list Event) (storage : Storage)
    : option (AppState * Storage) :=
  st0 ← initState rand storage;
  st ← run evs st0;
  Some (st, persist st storage).

(** The state of a first run, before any booking. *)
Definition freshState (sl : list Slot.t) : AppState :=
  mkApp sl [] None false "" None.

(** Number of bookings of [bs] that reference the slot [sid]. *)
Definition references (sid : string) (bs : list Booking.t) : nat :=
  length (filter (fun b => Booking.slotId b = sid) bs).

(** ** Sample data *)

Definition lotP1 : Slot.t := Slot.mk "P1" 0 0 90 150 normal.

(** Two bookings of one slot recorded under different identifiers, as a
    stored list may hold them. *)
Definition annP1 : Booking.t := Booking.mk "B1000" "P1" "Ann" "AB 123" 1000 3600000.
Definition bobP1 : Booking.t := Booking.mk "B2000" "P1" "Bob" "CD 456" 2000 3600000.
Definition doubleBooked : AppState := mkApp [lotP1] [annP1; bobP1] None false "" None.
Definition annShown : AppState := mkApp [lotP1] [annP1] None false "" (Some annP1).

(** [q] is a substring of [s]. *)
Definition occursIn (q s : string) : Prop :=
  exists pre post, s = pre +:+ q +:+ post.

(** A booking whose name, but neither its plate nor its slot, contains
    the letters a, b. *)
Definition abeP1 : Booking.t := Booking.mk "B3000" "P1" "Abe" "XY 789" 3000 3600000.
Definition abeParked : AppState := mkApp [lotP1] [abeP1] None false "" None.

(** Two sources of random draws: one above and one below the threshold
    of the large size. *)
Definition drawsHigh : nat -> Q := fun _ => 9 # 10.
Definition drawsLow : nat -> Q := fun _ => 1 # 10.

(** What the page maintains: no slot is referenced twice, and the slot
    for which the form was opened is referenced by no booking. *)
Definition wellBooked (st : AppState) : Prop :=
  (forall sid, (references sid (bookings st) <= 1)%nat) /\
  (forall s, selectedSlot st = Some s ->
             references (Slot.id s) (bookings st) = 0%nat).

(** ** Rendering *)

(** The [Stage] is 800 wide and 770 high; the [Group] of a slot is
    placed by its column and row, and holds a [Rect] of the width and
    height of the slot. *)
Definition stageWidth : Z := 800.
Definition stageHeight : Z := 770.

Definition slotX (slot : Slot.t) : Z := Slot.col slot * 120 + 20.
Definition slotY (slot : Slot.t) : Z := Slot.row slot * 180 + 20.

(** The rectangles drawn for [a] and [b] lie side by side or one
    above the other. *)
Definition apart (a b : Slot.t) : Prop :=
  slotX a + Slot.width a <= slotX b \/ slotX b + Slot.width b <= slotX a \/
  slotY a + Slot.height a <= slotY b \/ slotY b + Slot.height b <= slotY a.

Definition onStage (a : Slot.t) : Prop :=
  0 <= slotX a /\ slotX a + Slot.width a <= stageWidth /\
  0 <= slotY a /\ slotY a + Slot.height a <= stageHeight.

(** The time line of a booking card and of the detail card, drawn at
    the time [now]. *)
Definition remaining (now : Z) (bk : Booking.t) : Z :=
  Booking.start bk + Booking.durationMs bk - now.

Definition timeLabel (now : Z) (bk : Booking.t) : string :=
  let remaining := remaining now bk in
  let overtime := remaining <? 0 in
  if overtime then "Overtime " +:+ formatMs remaining
  else "Sisa " +:+ formatMs remaining.

(** The object pushed by the body of the inner loop of
    [makeDefaultSlots] when the counter is [id]. *)
Definition pushed (rand : nat -> Q) (id r c : nat) : Slot.t :=
  Slot.mk ("P" +:+ pretty (Z.of_nat id)) (Z.of_nat r) (Z.of_nat c) 90 150
          (if Qle_bool (rand (id - 1)%nat) (8 # 10) then normal else large).

(** The slot of index [k] of a grid of [cols] columns, in closed form:
    what the two loops of [makeDefaultSlots] are shown to push. *)
Definition gridCell (rand : nat -> Q) (cols k : nat) : Slot.t :=
  Slot.mk ("P" +:+ pretty (Z.of_nat (S k)))
          (Z.of_nat (k / cols)) (Z.of_nat (k mod cols)) 90 150
          (if Qle_bool (rand k) (8 # 10) then normal else large).

(** The clock readings of the submissions of a run. *)
Fixpoint submitTimes (evs : list Event) : list Z :=
  match evs with
  | [] => []
  | FormSubmit now _ _ _ :: evs' => now :: submitTimes evs'
  | _ :: evs' => submitTimes evs'
  end.

(** Two more things the page maintains: the detail card shows a booking
    of the list; every booking, and the selection, name a slot of the
    lot. *)
Definition detailListed (st : AppState) : Prop :=
  forall d, detailBooking st = Some d -> d ∈ bookings st.

Definition slotsExist (st : AppState) : Prop :=
  (forall b, b ∈ bookings st ->
     exists s, s ∈ slots st /\ Slot.id s = Booking.slotId b) /\
  (forall s, selectedSlot st = Some s -> s ∈ slots st).

(** The identifiers of the list are stamps of the clock readings [T],
    and no two are equal. *)
Definition stamped (T : list Z) (st : AppState) : Prop :=
  NoDup (Booking.id <$> bookings st) /\
  (forall b, b ∈ bookings st -> exists t, t ∈ T /\ Booking.id b = "B" +:+ pretty t).

(** * Properties *)

(** ** The status projection *)

Section Projection.
Implicit Types (bs pre post : list Booking.t) (b x : Booking.t) (sid : string).

Lemma slotStatusOf_app bs post :
  slotStatusOf (bs ++ post) = foldl assign (slotStatusOf bs) post.
Proof. unfold slotStatusOf. apply foldl_app. Qed.

Lemma slotStatusOf_snoc bs b :
  slotStatusOf (bs ++ [b]) = <[Booking.slotId b := b]> (slotStatusOf bs).
Proof. rewrite slotStatusOf_app. reflexivity. Qed.

(** Bookings of other slots leave the entry of [sid] alone. *)
Lemma assign_others sid post (status : gmap string Booking.t) :
  Forall (fun x => Booking.slotId x ≠ sid) post ->
  foldl assign status post !! sid = status !! sid.
Proof.
  intros Hpost. revert status.
  induction Hpost as [|x post Hx _ IH]; intros status; simpl.
  - reflexivity.
  - rewrite IH. unfold assign. apply lookup_insert_ne. exact Hx.
Qed.

Lemma slotStatusOf_last pre b post :
  Forall (fun x => Booking.slotId x ≠ Booking.slotId b) post ->
  slotStatusOf (pre ++ b :: post) !! Booking.slotId b = Some b.
Proof.
  intros Hpost. rewrite slotStatusOf_app. simpl.
  rewrite assign_others by exact Hpost.
  unfold assign. apply lookup_insert_eq.
Qed.

Lemma slotStatusOf_Some bs sid b :
  slotStatusOf bs !! sid = Some b ->
  exists pre post,
    bs = pre ++ b :: post /\ Booking.slotId b = sid /\
    Forall (fun x => Booking.slotId x ≠ sid) post.
Proof.
  induction bs as [|x bs IH] using rev_ind; intros Hlook.
  - unfold slotStatusOf in Hlook. simpl in Hlook.
    rewrite lookup_empty in Hlook. discriminate.
  - rewrite slotStatusOf_snoc in Hlook.
    destruct (decide (Booking.slotId x = sid)) as [Heq|Hne].
    + rewrite Heq, lookup_insert_eq in Hlook.
      injection Hlook as ->.
      exists bs, []. auto.
    + rewrite lookup_insert_ne in Hlook by exact Hne.
      destruct (IH Hlook) as (pre & post & -> & Hb & Hpost).
      exists pre, (post ++ [x]). split; [|split].
      * rewrite <- app_assoc. reflexivity.
      * exact Hb.
      * apply Forall_app. split; [exact Hpost|]. constructor; [exact Hne|constructor].
Qed.

Lemma slotStatusOf_None bs sid :
  slotStatusOf bs !! sid = None <->
  Forall (fun x => Booking.slotId x ≠ sid) bs.
Proof.
  split.
  - induction bs as [|x bs IH] using rev_ind; intros Hnone.
    + constructor.
    + rewrite slotStatusOf_snoc in Hnone.
      destruct (decide (Booking.slotId x = sid)) as [Heq|Hne].
      * rewrite Heq, lookup_insert_eq in Hnone. discriminate.
      * rewrite lookup_insert_ne in Hnone by exact Hne.
        apply Forall_app. split; [exact (IH Hnone)|].
        constructor; [exact Hne|constructor].
  - intros Hall. unfold slotStatusOf.
    rewrite assign_others by exact Hall. apply lookup_empty.
Qed.
End Projection.

(** C4. The status projection maps a slot id to the last booking of the
    list that references it (every later booking references another
    slot), and to no booking exactly when no booking of the list
    references it. *)
Theorem C4_slotStatus_last_write_wins (bs : list Booking.t) (sid : string) :
  (forall b,
     slotStatusOf bs !! sid = Some b <->
     exists pre post,
       bs = pre ++ b :: post /\ Booking.slotId b = sid /\
       Forall (fun x => Booking.slotId x ≠ sid) post) /\
  (slotStatusOf bs !! sid = None <->
   Forall (fun x => Booking.slotId x ≠ sid) bs).
Proof.
  split; [|apply slotStatusOf_None].
  intros b. split; [apply slotStatusOf_Some|].
  intros (pre & post & -> & <- & Hpost).
  apply slotStatusOf_last. exact Hpost.
Qed.

(** ** The booking store *)

Lemma handleBook_bookings now name plate durationHours st sel :
  selectedSlot st = Some sel ->
  bookings (handleBook now name plate durationHours st) =
  bookings st ++
  [Booking.mk ("B" +:+ pretty now) (Slot.id sel) name plate now
              (durationHours * 60 * 60 * 1000)].
Proof. intros Hsel. unfold handleBook. rewrite Hsel. reflexivity. Qed.

Lemma endSession_bookings id st :
  bookings (endSession true id st) =
  filter (fun x => Booking.id x ≠ id) (bookings st).
Proof.
  unfold endSession. simpl.
  destruct (detailBooking st) as [d|]; [|reflexivity].
  destruct (decide (Booking.id d = id)); reflexivity.
Qed.

(** C2. With a slot selected, [handleBook] appends exactly one booking,
    for the selected slot, started at the current time and lasting
    [durationHours * 60 * 60 * 1000] milliseconds; with no slot selected
    it changes nothing. *)
Theorem C2_handleBook_appends_or_noop
    (now : Z) (name plate : string) (durationHours : Z) (st : AppState) :
  (forall sel, selectedSlot st = Some sel ->
     exists bk,
       bookings (handleBook now name plate durationHours st) = bookings st ++ [bk] /\
       Booking.slotId bk = Slot.id sel /\
       Booking.start bk = now /\
       Booking.durationMs bk = durationHours * 60 * 60 * 1000) /\
  (selectedSlot st = None -> handleBook now name plate durationHours st = st).
Proof.
  split.
  - intros sel Hsel. eexists. split.
    + apply handleBook_bookings. exact Hsel.
    + simpl. auto.
  - intros Hnone. unfold handleBook. rewrite Hnone. reflexivity.
Qed.

(** C7. After a booking is created for the slot [s], the status
    projection of the new list shows [s] occupied by a booking that
    carries the submitted name and plate. *)
Theorem C7_create_then_project
    (now : Z) (name plate : string) (durationHours : Z) (st : AppState) (s : Slot.t) :
  selectedSlot st = Some s ->
  exists bk,
    slotStatus (handleBook now name plate durationHours st) !! Slot.id s = Some bk /\
    Booking.name bk = name /\ Booking.plate bk = plate.
Proof.
  intros Hsel. unfold slotStatus.
  rewrite (handleBook_bookings _ _ _ _ _ _ Hsel), slotStatusOf_snoc.
  eexists. split; [apply lookup_insert_eq|]. simpl. auto.
Qed.

(** C7 at the slot P1 of a one-slot lot, booked by Ann. *)
Lemma C7_create_then_project_witness :
  exists bk,
    slotStatus (handleBook 1000 "Ann" "AB 123" 2 (openBooking lotP1 (freshState [lotP1])))
      !! "P1" = Some bk /\
    Booking.name bk = "Ann" /\ Booking.plate bk = "AB 123".
Proof.
  apply (C7_create_then_project 1000 "Ann" "AB 123" 2
           (openBooking lotP1 (freshState [lotP1])) lotP1).
  reflexivity.
Defined.

(** C10. When the confirmation is declined, [endSession] changes
    neither the booking list nor the booking shown in the detail
    panel. *)
Theorem C10_endSession_declined (id : string) (st : AppState) :
  endSession false id st = st /\
  bookings (endSession false id st) = bookings st /\
  detailBooking (endSession false id st) = detailBooking st.
Proof. unfold endSession. simpl. repeat split; reflexivity. Qed.

(** C8. A remaining time of -5000 ms is rendered as 5 seconds, and
    3661000 ms as one hour, one minute and one second. *)
Theorem C8_formatMs_examples :
  formatMs (-5000) = "0h 0m 5s" /\ formatMs 3661000 = "1h 1m 1s".
Proof. split; vm_compute; reflexivity. Qed.


(** C3, as stated, fails: with two bookings of the slot P1 in the list,
    ending the first leaves P1 occupied by the second. *)
Lemma C3_slot_still_occupied :
  annP1 ∈ bookings doubleBooked /\
  slotStatus (endSession true (Booking.id annP1) doubleBooked) !! Booking.slotId annP1
  = Some bobP1.
Proof.
  split.
  - apply list_elem_of_here.
  - vm_compute. reflexivity.
Qed.

Lemma endSession_removes_id id st x :
  x ∈ bookings (endSession true id st) -> Booking.id x ≠ id.
Proof.
  rewrite endSession_bookings. intros Hx.
  apply list_elem_of_filter in Hx. tauto.
Qed.

Lemma endSession_frees_slot st b :
  (forall x, x ∈ bookings st ->
     Booking.slotId x = Booking.slotId b -> Booking.id x = Booking.id b) ->
  slotStatus (endSession true (Booking.id b) st) !! Booking.slotId b = None.
Proof.
  intros Honly. unfold slotStatus. rewrite endSession_bookings.
  apply slotStatusOf_None, Forall_forall. intros x Hx Hslot.
  apply list_elem_of_filter in Hx as [Hid Hin].
  apply Hid, Honly; assumption.
Qed.

(** The slot of [b] is free after the end of [b] only if no booking of
    another identifier referenced it. *)
Lemma endSession_free_only st b x :
  slotStatus (endSession true (Booking.id b) st) !! Booking.slotId b = None ->
  x ∈ bookings st ->
  Booking.slotId x = Booking.slotId b -> Booking.id x = Booking.id b.
Proof.
  unfold slotStatus. rewrite endSession_bookings. intros Hfree Hx Hslot.
  destruct (decide (Booking.id x = Booking.id b)) as [Heq|Hne]; [exact Heq|].
  exfalso. apply slotStatusOf_None in Hfree.
  rewrite Forall_forall in Hfree. apply (Hfree x); [|exact Hslot].
  apply list_elem_of_filter. auto.
Qed.

(** C3, amended. For every booking list that contains [b], ending [b]
    leaves no booking with the identifier of [b] in the list; and the
    projection of the resulting list has no booking for the slot of [b]
    exactly when every booking of the list that references that slot
    carries the identifier of [b]. *)
Theorem C3_endSession_frees_slot (st : AppState) (b : Booking.t) :
  b ∈ bookings st ->
  (forall x, x ∈ bookings (endSession true (Booking.id b) st) ->
     Booking.id x ≠ Booking.id b) /\
  (slotStatus (endSession true (Booking.id b) st) !! Booking.slotId b = None <->
   forall x, x ∈ bookings st ->
     Booking.slotId x = Booking.slotId b -> Booking.id x = Booking.id b).
Proof.
  intros _. split.
  - intros x. apply endSession_removes_id.
  - split.
    + intros Hfree x. apply endSession_free_only. exact Hfree.
    + apply endSession_frees_slot.
Qed.

(** The amended C3 at a list with the single booking of Ann. *)
Lemma C3_endSession_frees_slot_witness :
  (forall x, x ∈ bookings (endSession true "B1000" annShown) -> Booking.id x ≠ "B1000") /\
  (slotStatus (endSession true "B1000" annShown) !! "P1" = None <->
   forall x, x ∈ bookings annShown ->
     Booking.slotId x = "P1" -> Booking.id x = "B1000").
Proof.
  apply (C3_endSession_frees_slot annShown annP1).
  apply list_elem_of_here.
Defined.

(** ** One booking per slot *)

Lemma references_snoc sid bs b :
  references sid (bs ++ [b]) =
  (references sid bs + (if decide (Booking.slotId b = sid) then 1 else 0))%nat.
Proof.
  unfold references. rewrite filter_app, length_app. f_equal.
  rewrite filter_cons, filter_nil.
  destruct (decide (Booking.slotId b = sid)); reflexivity.
Qed.

Lemma references_filter sid (P : Booking.t -> Prop) `{!forall x, Decision (P x)} bs :
  (references sid (filter P bs) <= references sid bs)%nat.
Proof.
  unfold references. induction bs as [|x bs IH]; [reflexivity|].
  rewrite (filter_cons P), (filter_cons (fun b => Booking.slotId b = sid) x bs).
  destruct (decide (P x)), (decide (Booking.slotId x = sid)); simpl.
  - rewrite filter_cons_True by assumption. simpl. lia.
  - rewrite filter_cons_False by assumption. lia.
  - lia.
  - lia.
Qed.

Lemma references_free sid bs :
  slotStatusOf bs !! sid = None -> references sid bs = 0%nat.
Proof.
  intros Hnone. apply slotStatusOf_None in Hnone. unfold references.
  induction Hnone as [|x bs Hx _ IH]; [reflexivity|].
  rewrite filter_cons_False by (intros Heq; exact (Hx Heq)). exact IH.
Qed.

Lemma handleBook_wellBooked now name plate durationHours st :
  wellBooked st -> wellBooked (handleBook now name plate durationHours st).
Proof.
  intros [Hone Hsel]. destruct (selectedSlot st) as [sel|] eqn:Esel.
  - split.
    + intros sid. rewrite (handleBook_bookings _ _ _ _ _ _ Esel), references_snoc.
      simpl. destruct (decide (Slot.id sel = sid)) as [<-|_].
      * rewrite (Hsel sel eq_refl). lia.
      * specialize (Hone sid). lia.
    + unfold handleBook. rewrite Esel. simpl. discriminate.
  - unfold handleBook. rewrite Esel. split; [exact Hone|].
    intros s Hs. rewrite Esel in Hs. discriminate.
Qed.

Lemma endSession_selectedSlot confirmed id st :
  selectedSlot (endSession confirmed id st) = selectedSlot st.
Proof.
  unfold endSession. destruct confirmed; simpl; [|reflexivity].
  destruct (detailBooking st) as [d|]; [|reflexivity].
  destruct (decide (Booking.id d = id)); reflexivity.
Qed.

Lemma endSession_wellBooked confirmed id st :
  wellBooked st -> wellBooked (endSession confirmed id st).
Proof.
  intros [Hone Hsel]. destruct confirmed; [|split; assumption].
  split.
  - intros sid. rewrite endSession_bookings.
    etransitivity; [apply references_filter|apply Hone].
  - intros s Hs. rewrite endSession_selectedSlot in Hs.
    rewrite endSession_bookings.
    pose proof (references_filter (Slot.id s) (fun x => Booking.id x ≠ id) (bookings st)).
    rewrite (Hsel s Hs) in *. lia.
Qed.

(** An event that is handled: the element is drawn, and the state is
    the handler's. *)
Ltac handled H :=
  simpl in H;
  repeat match type of H with
         | (match ?c with _ => _ end) = Some _ =>
             destruct c eqn:?; [|discriminate H]
         | (?c ≫= _) = Some _ =>
             destruct c eqn:?; [simpl in H|discriminate H]
         end;
  injection H as <-.

Lemma step_wellBooked ev st st' :
  wellBooked st -> step ev st = Some st' -> wellBooked st'.
Proof.
  intros Hwb Hstep.
  destruct ev; handled Hstep;
    auto using handleBook_wellBooked, endSession_wellBooked.
  (* a click on a drawn slot *)
  match goal with
  | |- wellBooked (match slotStatus st !! ?sid with _ => _ end) =>
      destruct (slotStatus st !! sid) eqn:Estatus; [exact Hwb|]
  end.
  destruct Hwb as [Hone _]. split; [exact Hone|].
  simpl. intros s [= <-]. apply references_free. exact Estatus.
Qed.

Lemma freshState_wellBooked sl : wellBooked (freshState sl).
Proof.
  split; [intros sid; unfold references; simpl; lia|simpl; discriminate].
Qed.

Lemma run_wellBooked evs st st' :
  wellBooked st -> run evs st = Some st' -> wellBooked st'.
Proof.
  revert st. induction evs as [|ev evs IH]; intros st Hwb Hrun; simpl in Hrun.
  - injection Hrun as <-. exact Hwb.
  - destruct (step ev st) as [st1|] eqn:Estep; [|discriminate].
    simpl in Hrun. exact (IH st1 (step_wellBooked _ _ _ Hwb Estep) Hrun).
Qed.

(** C1. From a first run with an empty booking list, whatever the
    events of the page (searches, clicks on slots, submissions and
    cancellations of the form, detail and end buttons, ticks), every slot
    is referenced by at most one booking.  A booking is created only by a
    submission of the form, and removed only by an end button; the form
    opens only on a slot that the projection shows free, and a submission
    clears the selection. *)
Theorem C1_one_booking_per_slot
    (sl : list Slot.t) (evs : list Event) (st : AppState) (sid : string) :
  run evs (freshState sl) = Some st ->
  (references sid (bookings st) <= 1)%nat.
Proof.
  intros Hrun.
  destruct (run_wellBooked evs _ _ (freshState_wellBooked sl) Hrun) as [Hone _].
  apply Hone.
Qed.

(** C1 after one click on P1 and one submission. *)
Lemma C1_one_booking_per_slot_witness :
  (references "P1"
     (bookings
        (mkApp [lotP1] [Booking.mk "B1000" "P1" "Ann" "AB 123" 1000 3600000]
               None false "" None))
   <= 1)%nat.
Proof.
  apply (C1_one_booking_per_slot [lotP1]
           [SlotClick 0; FormSubmit 1000 "Ann" "AB 123" 1]).
  vm_compute. reflexivity.
Defined.

(** With at most one booking on a slot, the bookings of the list that
    reference it are one and the same. *)
Lemma references_unique sid bs b x :
  (references sid bs <= 1)%nat ->
  b ∈ bs -> x ∈ bs ->
  Booking.slotId b = sid -> Booking.slotId x = sid -> x = b.
Proof.
  unfold references. intros Hone Hb Hx Hbs Hxs.
  assert (Hb' : b ∈ filter (fun y => Booking.slotId y = sid) bs)
    by (apply list_elem_of_filter; auto).
  assert (Hx' : x ∈ filter (fun y => Booking.slotId y = sid) bs)
    by (apply list_elem_of_filter; auto).
  destruct (filter (fun y => Booking.slotId y = sid) bs) as [|y [|z l]].
  - apply elem_of_nil in Hb'. contradiction.
  - apply list_elem_of_singleton in Hb', Hx'. congruence.
  - simpl in Hone. lia.
Qed.

(** On the page, from a first run, ending a booking of the list frees
    its slot: the condition of the amended C3 holds there. *)
Lemma reachable_endSession_frees_slot sl evs st b :
  run evs (freshState sl) = Some st ->
  b ∈ bookings st ->
  slotStatus (endSession true (Booking.id b) st) !! Booking.slotId b = None.
Proof.
  intros Hrun Hb.
  destruct (run_wellBooked evs _ _ (freshState_wellBooked sl) Hrun) as [Hone _].
  apply endSession_frees_slot. intros x Hx Hslot.
  f_equal. exact (references_unique _ _ _ _ (Hone _) Hb Hx eq_refl Hslot).
Qed.

(** ** The search filter *)

Lemma startsWith_spec s q :
  startsWith s q = true <-> exists post, s = q +:+ post.
Proof.
  revert s. induction q as [|b q IH]; intros s.
  - split; [intros _; exists s; reflexivity|destruct s; reflexivity].
  - destruct s as [|a s]; simpl.
    + split; [discriminate|intros [post Hpost]; discriminate].
    + rewrite andb_true_iff, Ascii.eqb_eq, IH. split.
      * intros [-> [post ->]]. exists post. reflexivity.
      * intros [post [= -> ->]]. split; [reflexivity|exists post; reflexivity].
Qed.

Lemma includes_spec s q : includes s q = true <-> occursIn q s.
Proof.
  unfold occursIn. induction s as [|a s IH].
  - change (includes "" q) with (startsWith "" q || false)%bool.
    rewrite orb_false_r, startsWith_spec. split.
    + intros [post Hpost]. exists "", post. exact Hpost.
    + intros (pre & post & Heq). destruct pre; [|discriminate].
      exists post. exact Heq.
  - change (includes (String a s) q)
      with (startsWith (String a s) q || includes s q)%bool.
    rewrite orb_true_iff, startsWith_spec, IH. split.
    + intros [[post Hpost]|(pre & post & ->)].
      * exists "", post. exact Hpost.
      * exists (String a pre), post. reflexivity.
    + intros (pre & post & Heq). destruct pre as [|c pre].
      * left. exists post. exact Heq.
      * right. injection Heq as _ ->. exists pre, post. reflexivity.
Qed.

Lemma includes_empty s : includes s "" = true.
Proof. destruct s; reflexivity. Qed.

Lemma matchesQuery_spec status q (s : Slot.t) :
  matchesQuery status q s = true <->
  occursIn (toLowerCase q) (toLowerCase (Slot.id s)) \/
  exists b, status !! Slot.id s = Some b /\
    (occursIn (toLowerCase q) (toLowerCase (Booking.plate b)) \/
     occursIn (toLowerCase q) (toLowerCase (Booking.name b))).
Proof.
  unfold matchesQuery. rewrite !orb_true_iff, includes_spec.
  destruct (status !! Slot.id s) as [b|]; simpl.
  - rewrite !includes_spec. split.
    + intros [[Hid|Hplate]|Hname]; [left; exact Hid| |]; right; exists b; auto.
    + intros [Hid|(b' & [= <-] & [Hplate|Hname])]; auto.
  - split.
    + intros [[Hid|Hf]|Hf]; [left; exact Hid|discriminate|discriminate].
    + intros [Hid|(b' & Hb' & _)]; [auto|discriminate].
Qed.

Lemma filteredSlots_spec q st (s : Slot.t) :
  s ∈ filteredSlots (setQuery q st) <->
  s ∈ slots st /\
  (occursIn (toLowerCase q) (toLowerCase (Slot.id s)) \/
   exists b, slotStatus st !! Slot.id s = Some b /\
     (occursIn (toLowerCase q) (toLowerCase (Booking.plate b)) \/
      occursIn (toLowerCase q) (toLowerCase (Booking.name b)))).
Proof.
  unfold filteredSlots. simpl.
  rewrite !list_elem_of_In, filter_In, matchesQuery_spec. reflexivity.
Qed.

(** C5. The search filter keeps a slot exactly when the query, in lower
    case, is a substring of the slot id in lower case, or of the plate or
    of the name, in lower case, of the booking that occupies the slot.
    The empty query keeps every slot, and a free slot is kept exactly
    when its id matches. *)
Theorem C5_search_filter (q : string) (st : AppState) (s : Slot.t) :
  (s ∈ filteredSlots (setQuery q st) <->
   s ∈ slots st /\
   (occursIn (toLowerCase q) (toLowerCase (Slot.id s)) \/
    exists b, slotStatus st !! Slot.id s = Some b /\
      (occursIn (toLowerCase q) (toLowerCase (Booking.plate b)) \/
       occursIn (toLowerCase q) (toLowerCase (Booking.name b))))) /\
  filteredSlots (setQuery "" st) = slots st /\
  (slotStatus st !! Slot.id s = None ->
   (s ∈ filteredSlots (setQuery q st) <->
    s ∈ slots st /\ occursIn (toLowerCase q) (toLowerCase (Slot.id s)))).
Proof.
  split; [apply filteredSlots_spec|]. split.
  - unfold filteredSlots. simpl.
    induction (slots st) as [|x l IH]; [reflexivity|].
    simpl. unfold matchesQuery at 1. simpl. rewrite includes_empty. simpl.
    f_equal. exact IH.
  - intros Hfree. rewrite filteredSlots_spec, Hfree. split.
    + intros [Hin [Hid|(b & Hb & _)]]; [auto|discriminate].
    + intros [Hin Hid]. auto.
Qed.

(** C6, as stated, fails: for the query "AB" the slot P1, booked by Abe
    with the plate XY 789, is kept, although neither the id nor the plate
    contains "ab". *)
Lemma C6_name_match_kept :
  lotP1 ∈ filteredSlots (setQuery "AB" abeParked) /\
  slotStatus abeParked !! Slot.id lotP1 = Some abeP1 /\
  ~ occursIn "ab" (toLowerCase (Slot.id lotP1)) /\
  ~ occursIn "ab" (toLowerCase (Booking.plate abeP1)).
Proof.
  split; [|split; [|split]].
  - vm_compute. apply list_elem_of_here.
  - vm_compute. reflexivity.
  - rewrite <- includes_spec. vm_compute. discriminate.
  - rewrite <- includes_spec. vm_compute. discriminate.
Qed.

(** C6, amended. For the query "AB" the search filter returns exactly
    the slots whose id contains "ab", or whose occupying booking has a
    plate or a name that contains "ab", all without regard to case. *)
Theorem C6_search_AB (st : AppState) (s : Slot.t) :
  s ∈ filteredSlots (setQuery "AB" st) <->
  s ∈ slots st /\
  (occursIn "ab" (toLowerCase (Slot.id s)) \/
   exists b, slotStatus st !! Slot.id s = Some b /\
     (occursIn "ab" (toLowerCase (Booking.plate b)) \/
      occursIn "ab" (toLowerCase (Booking.name b)))).
Proof. apply (filteredSlots_spec "AB"). Qed.

(** ** Persistence *)

Lemma bookingOfJson_bookingToJson b : bookingOfJson (bookingToJson b) = Some b.
Proof. destruct b. reflexivity. Qed.

Lemma slotOfJson_slotToJson s : slotOfJson (slotToJson s) = Some s.
Proof. destruct s as [id row col width height []]; reflexivity. Qed.

(** The booking list written by the effect is the one read back. *)
Lemma parseBookings_stringifyBookings bs :
  parseBookings (stringifyBookings bs) = Some bs.
Proof.
  unfold parseBookings, stringifyBookings. simpl.
  apply mapM_fmap_Some. exact bookingOfJson_bookingToJson.
Qed.

(** So would a slot list, were it written. *)
Lemma parseSlots_stringifySlots sl :
  parseSlots (stringifySlots sl) = Some sl.
Proof.
  unfold parseSlots, stringifySlots. simpl.
  apply mapM_fmap_Some. exact slotOfJson_slotToJson.
Qed.

Lemma storage_keys_differ : STORAGE_KEY_BOOKINGS ≠ STORAGE_KEY_SLOTS.
Proof. discriminate. Qed.

(** No session writes the key of the slot list. *)
Lemma session_slots_key rand evs (storage storage' : Storage) st :
  session rand evs storage = Some (st, storage') ->
  storage' !! STORAGE_KEY_SLOTS = storage !! STORAGE_KEY_SLOTS.
Proof.
  unfold session. intros Hs.
  destruct (initState rand storage) as [st0|]; [|discriminate]. simpl in Hs.
  destruct (run evs st0) as [st1|]; [|discriminate]. simpl in Hs.
  injection Hs as _ <-. unfold persist.
  apply lookup_insert_ne, storage_keys_differ.
Qed.

(** The next session starts from the booking list the last one left. *)
Lemma session_reload_bookings rand evs (storage storage' : Storage) st :
  session rand evs storage = Some (st, storage') ->
  initBookings storage' = Some (bookings st).
Proof.
  unfold session. intros Hs.
  destruct (initState rand storage) as [st0|]; [|discriminate]. simpl in Hs.
  destruct (run evs st0) as [st1|]; [|discriminate]. simpl in Hs.
  injection Hs as <- <-. unfold initBookings, persist.
  rewrite lookup_insert_eq. apply parseBookings_stringifyBookings.
Qed.

(** On a store without the key of the slot list, every session draws a
    new grid. *)
Lemma initSlots_absent rand (storage : Storage) :
  storage !! STORAGE_KEY_SLOTS = None ->
  initSlots rand storage = Some (makeDefaultSlots rand 4 6).
Proof. unfold initSlots. intros ->. reflexivity. Qed.

(** C9. Reloading restores the booking list and not the slot layout: a
    first run on the empty store, with draws above the threshold, makes
    the slot P1 large and books it; the store it leaves has no slot list,
    and the next run, with draws below the threshold, starts with the same
    booking and the slot P1 normal. *)
Theorem C9_reload_redraws_slots :
  exists st1 storage1 st2 storage2,
    session drawsHigh [SlotClick 0; FormSubmit 1000 "Ann" "AB 123" 1] ∅
      = Some (st1, storage1) /\
    session drawsLow [] storage1 = Some (st2, storage2) /\
    storage1 !! STORAGE_KEY_SLOTS = None /\
    bookings st2 = bookings st1 /\
    Slot.size <$> slots st1 !! 0%nat = Some large /\
    Slot.size <$> slots st2 !! 0%nat = Some normal /\
    slots st2 ≠ slots st1.
Proof.
  pose (bk := Booking.mk "B1000" "P1" "Ann" "AB 123" 1000 3600000).
  pose (st1 := mkApp (makeDefaultSlots drawsHigh 4 6) [bk] None false "" None).
  pose (st2 := mkApp (makeDefaultSlots drawsLow 4 6) [bk] None false "" None).
  exists st1, (persist st1 ∅), st2, (persist st2 (persist st1 ∅)).
  split; [vm_compute; reflexivity|].
  split; [vm_compute; reflexivity|].
  split; [vm_compute; reflexivity|].
  split; [reflexivity|].
  split; [vm_compute; reflexivity|].
  split; [vm_compute; reflexivity|].
  vm_compute. discriminate.
Qed.

(** * Further properties of the code *)

(** ** The slot grid *)

Section Grid.
Variable rand : nat -> Q.

(** One pass of the inner loop: [n] columns from [c0] on, in the row [r]. *)
Lemma grid_row n sl id r c0 :
  foldl
    (fun '(slots, id) c =>
       (slots ++
        [Slot.mk ("P" +:+ pretty (Z.of_nat id)) (Z.of_nat r) (Z.of_nat c) 90 150
                 (if Qle_bool (rand (id - 1)%nat) (8 # 10) then normal else large)],
        S id))
    (sl, id) (seq c0 n)
  = (sl ++ ((fun j => pushed rand (id + j) r (c0 + j)) <$> seq 0 n),
     (id + n)%nat).
Proof.
  revert sl id c0. induction n as [|n IH]; intros sl id c0.
  - simpl. rewrite app_nil_r, Nat.add_0_r. reflexivity.
  - cbn [seq foldl]. rewrite IH. f_equal; [|lia].
    rewrite <- app_assoc. f_equal. cbn [fmap list_fmap app].
    rewrite !Nat.add_0_r. f_equal.
    rewrite <- (fmap_add_seq 1 0 n : S <$> seq 0 n = seq 1 n), <- list_fmap_compose.
    apply list_fmap_ext. intros _ j _. unfold compose.
    f_equal; lia.
Qed.

(** The outer loop: [m] rows from [r0] on. *)
Lemma grid_rows cols m sl id r0 :
  foldl
    (fun acc r =>
       foldl
         (fun '(slots, id) c =>
            (slots ++
             [Slot.mk ("P" +:+ pretty (Z.of_nat id)) (Z.of_nat r) (Z.of_nat c) 90 150
                      (if Qle_bool (rand (id - 1)%nat) (8 # 10) then normal
                       else large)],
             S id))
         acc (seq 0 cols))
    (sl, id) (seq r0 m)
  = (sl ++
     ((fun k => pushed rand (id + k) (r0 + k / cols) (k mod cols))
        <$> seq 0 (m * cols)),
     (id + m * cols)%nat).
Proof.
  revert sl id r0. induction m as [|m IH]; intros sl id r0.
  - simpl. rewrite app_nil_r, Nat.add_0_r. reflexivity.
  - cbn [seq foldl]. rewrite grid_row, IH. f_equal; [|lia].
    rewrite <- app_assoc. f_equal.
    change (S m * cols)%nat with (cols + m * cols)%nat.
    rewrite seq_app, fmap_app. f_equal.
    + apply list_fmap_ext. intros i j Hj.
      apply lookup_seq in Hj as [-> Hlt]. simpl.
      rewrite Nat.div_small, Nat.mod_small by exact Hlt.
      f_equal; lia.
    + replace (seq (0 + cols) (m * cols))
        with (Nat.add cols <$> seq 0 (m * cols))
        by (rewrite fmap_add_seq; f_equal; lia).
      rewrite <- list_fmap_compose.
      apply list_fmap_ext. intros i k Hk.
      apply lookup_seq in Hk as [-> Hlt]. unfold compose.
      rewrite !Nat.add_0_l.
      assert (Hcols : cols <> 0%nat) by (intros ->; lia).
      replace (cols + i)%nat with (i + 1 * cols)%nat by lia.
      rewrite Nat.div_add, Nat.Div0.mod_add by exact Hcols.
      generalize (i / cols)%nat (i mod cols)%nat. intros q r.
      f_equal; lia.
Qed.

Lemma makeDefaultSlots_cells rows cols :
  makeDefaultSlots rand rows cols = gridCell rand cols <$> seq 0 (rows * cols).
Proof.
  unfold makeDefaultSlots. rewrite grid_rows. cbn [fst app].
  apply list_fmap_ext. intros i k _. unfold pushed, gridCell.
  replace (1 + k - 1)%nat with k by lia. reflexivity.
Qed.
End Grid.

(** X1. The two loops of [makeDefaultSlots] build [rows * cols] slots;
    the slot of index [k] is named P followed by [k + 1], lies in the row
    [k / cols] and the column [k mod cols], is 90 wide and 150 high, and
    is large exactly when the [k]-th draw exceeds 0.8. *)
Theorem X1_makeDefaultSlots_closed_form (rand : nat -> Q) (rows cols : nat) :
  makeDefaultSlots rand rows cols = gridCell rand cols <$> seq 0 (rows * cols) /\
  length (makeDefaultSlots rand rows cols) = (rows * cols)%nat.
Proof.
  split; [apply makeDefaultSlots_cells|].
  rewrite makeDefaultSlots_cells, length_fmap, length_seq. reflexivity.
Qed.

Lemma gridCell_id_inj rand cols : Inj (=) (=) (Slot.id ∘ gridCell rand cols).
Proof.
  intros k k' Heq. unfold compose, gridCell in Heq.
  cbn [Slot.id String.append] in Heq.
  injection Heq as Heq. apply pretty_Z_inj in Heq. lia.
Qed.

(** X2. The slots of a generated grid carry pairwise distinct
    identifiers. *)
Theorem X2_makeDefaultSlots_ids_distinct (rand : nat -> Q) (rows cols : nat) :
  NoDup (Slot.id <$> makeDefaultSlots rand rows cols).
Proof.
  rewrite makeDefaultSlots_cells, <- list_fmap_compose.
  pose proof (gridCell_id_inj rand cols) as Hinj.
  apply (NoDup_fmap_2 _), NoDup_seq.
Qed.

(** X3. The draws decide the size class and nothing else: two grids of
    the same dimensions agree, slot by slot, on identifier, row, column,
    width and height. *)
Theorem X3_makeDefaultSlots_draws_only_size (rand rand' : nat -> Q) (rows cols : nat) :
  Forall2
    (fun a b =>
       Slot.id a = Slot.id b /\ Slot.row a = Slot.row b /\
       Slot.col a = Slot.col b /\ Slot.width a = Slot.width b /\
       Slot.height a = Slot.height b)
    (makeDefaultSlots rand rows cols) (makeDefaultSlots rand' rows cols).
Proof.
  rewrite !makeDefaultSlots_cells. apply Forall2_fmap, Forall_Forall2_diag.
  apply Forall_forall. intros k _. simpl. auto.
Qed.

Lemma makeDefaultSlots_lookup rand rows cols k a :
  makeDefaultSlots rand rows cols !! k = Some a ->
  a = gridCell rand cols k /\ (k < rows * cols)%nat.
Proof.
  rewrite makeDefaultSlots_cells, list_lookup_fmap. intros Hk.
  destruct (seq 0 (rows * cols) !! k) as [k'|] eqn:Ek; [|discriminate].
  apply lookup_seq in Ek as [-> Hlt]. injection Hk as <-. auto.
Qed.

(** X4. No two rectangles drawn for the slots of a generated grid
    overlap: columns are 120 apart for a width of 90, rows 180 apart for
    a height of 150. *)
Theorem X4_grid_rectangles_apart
    (rand : nat -> Q) (rows cols i j : nat) (a b : Slot.t) :
  i <> j ->
  makeDefaultSlots rand rows cols !! i = Some a ->
  makeDefaultSlots rand rows cols !! j = Some b ->
  apart a b.
Proof.
  intros Hij Ha Hb.
  apply makeDefaultSlots_lookup in Ha as [-> Hi], Hb as [-> Hj].
  unfold apart, slotX, slotY, gridCell.
  cbn [Slot.col Slot.row Slot.width Slot.height].
  pose proof (Nat.div_mod_eq i cols) as Ei.
  pose proof (Nat.div_mod_eq j cols) as Ej.
  revert Ei Ej.
  generalize (i / cols)%nat (i mod cols)%nat (j / cols)%nat (j mod cols)%nat.
  intros qi ri qj rj Ei Ej.
  destruct (decide (ri = rj)) as [->|Hr]; [|lia].
  destruct (decide (qi = qj)) as [->|Hq]; [|lia].
  exfalso. apply Hij. congruence.
Qed.

(** X4 on the first two slots of the grid of 4 rows and 6 columns. *)
Lemma X4_grid_rectangles_apart_witness :
  apart (gridCell drawsHigh 6 0) (gridCell drawsHigh 6 1).
Proof.
  apply (X4_grid_rectangles_apart drawsHigh 4 6 0 1).
  - discriminate.
  - vm_compute. reflexivity.
  - vm_compute. reflexivity.
Defined.

(** X5. Every rectangle of the grid of 4 rows and 6 columns that the
    program generates lies on the stage of 800 by 770. *)
Theorem X5_default_grid_on_stage (rand : nat -> Q) :
  Forall onStage (makeDefaultSlots rand 4 6).
Proof.
  rewrite makeDefaultSlots_cells. apply Forall_fmap, Forall_forall.
  intros k Hk. apply elem_of_seq in Hk as [_ Hk]. simpl in Hk.
  unfold compose, onStage, slotX, slotY, stageWidth, stageHeight, gridCell.
  cbn [Slot.col Slot.row Slot.width Slot.height].
  assert (k / 6 < 4)%nat by (apply Nat.Div0.div_lt_upper_bound; lia).
  assert (k mod 6 < 6)%nat by (apply Nat.mod_upper_bound; lia).
  lia.
Qed.

(** ** Duration rendering *)

(** [formatMs] reads its argument through the whole seconds only. *)
Lemma formatMs_seconds a b :
  Z.abs (a / 1000) = Z.abs (b / 1000) -> formatMs a = formatMs b.
Proof. unfold formatMs. intros ->. reflexivity. Qed.

(** X6. The three numbers printed by [formatMs] are the hours, the
    minutes below 60 and the seconds below 60 of the absolute number of
    whole seconds of its argument (rounded towards minus infinity before
    the sign is dropped). *)
Theorem X6_formatMs_parts (ms : Z) :
  exists h m sec,
    formatMs ms = pretty h +:+ "h " +:+ pretty m +:+ "m " +:+ pretty sec +:+ "s" /\
    0 <= h /\ 0 <= m < 60 /\ 0 <= sec < 60 /\
    h * 3600 + m * 60 + sec = Z.abs (ms / 1000).
Proof.
  unfold formatMs. set (s := Z.abs (ms / 1000)).
  assert (Hs : 0 <= s) by apply Z.abs_nonneg.
  exists (s / 3600), (Z.rem s 3600 / 60), (Z.rem s 60).
  split; [reflexivity|].
  rewrite !Z.rem_mod_nonneg by lia.
  pose proof (Z.div_mod s 3600 ltac:(lia)) as E1.
  pose proof (Z.mod_pos_bound s 3600 ltac:(lia)) as B1.
  pose proof (Z.div_mod (s mod 3600) 60 ltac:(lia)) as E2.
  pose proof (Z.mod_pos_bound (s mod 3600) 60 ltac:(lia)) as B2.
  pose proof (Z.mod_pos_bound s 60 ltac:(lia)) as B3.
  assert (E3 : (s mod 3600) mod 60 = s mod 60).
  { apply Z.mod_mod_divide. exists 60. reflexivity. }
  pose proof (Z.div_pos s 3600 Hs ltac:(lia)) as P1.
  assert (0 <= (s mod 3600) / 60 < 60).
  { split; [apply Z.div_pos; lia|apply Z.div_lt_upper_bound; lia]. }
  lia.
Qed.

(** X7. On a multiple of 1000 the sign does not matter; on any other
    positive number of milliseconds the overtime is shown one second
    longer than the same time remaining: an overtime of less than a
    second reads 1s, a remaining time of less than a second reads 0s. *)
Theorem X7_formatMs_negative_rounds_up (ms : Z) :
  (ms mod 1000 = 0 -> formatMs (- ms) = formatMs ms) /\
  (0 < ms -> ms mod 1000 <> 0 -> formatMs (- ms) = formatMs (ms + 1000)).
Proof.
  split.
  - intros Hmod. apply formatMs_seconds.
    apply Z.mod_divide in Hmod as [k ->]; [|lia].
    rewrite <- Z.mul_opp_l, !Z.div_mul by lia. apply Z.abs_opp.
  - intros Hpos Hmod. apply formatMs_seconds.
    pose proof (Z.div_mod ms 1000 ltac:(lia)) as E.
    pose proof (Z.mod_pos_bound ms 1000 ltac:(lia)) as B.
    assert (Hq : 0 <= ms / 1000) by (apply Z.div_pos; lia).
    assert (E1 : (ms + 1000) / 1000 = ms / 1000 + 1).
    { replace (ms + 1000) with (ms + 1 * 1000) by lia. apply Z.div_add. lia. }
    assert (E2 : (- ms) / 1000 = - (ms / 1000) - 1).
    { symmetry. apply (Z.div_unique (- ms) 1000 _ (1000 - ms mod 1000)); lia. }
    rewrite E1, E2. lia.
Qed.

Lemma formatMs_whole_hours d :
  formatMs (d * 60 * 60 * 1000) = pretty (Z.abs d) +:+ "h 0m 0s".
Proof.
  unfold formatMs.
  replace (d * 60 * 60 * 1000) with (d * 3600 * 1000) by lia.
  rewrite Z.div_mul by lia.
  replace (Z.abs (d * 3600)) with (Z.abs d * 3600) by lia.
  rewrite Z.div_mul, Z.rem_mul by lia.
  replace (Z.abs d * 3600) with (Z.abs d * 60 * 60) by lia.
  rewrite Z.rem_mul by lia. reflexivity.
Qed.

(** X8. At the moment it is created, a booking for [d] hours reads
    "Sisa dh 0m 0s" when [d] is not negative; a negative [d] is accepted
    and the booking is overtime at once, by [-d] hours. *)
Theorem X8_new_booking_label
    (now : Z) (name plate : string) (d : Z) (st : AppState) (s : Slot.t) :
  selectedSlot st = Some s ->
  exists bk,
    bookings (handleBook now name plate d st) = bookings st ++ [bk] /\
    (0 <= d -> timeLabel now bk = "Sisa " +:+ pretty d +:+ "h 0m 0s") /\
    (d < 0 -> timeLabel now bk = "Overtime " +:+ pretty (- d) +:+ "h 0m 0s").
Proof.
  intros Hsel. eexists. split; [apply (handleBook_bookings _ _ _ _ _ _ Hsel)|].
  unfold timeLabel, remaining. cbn [Booking.start Booking.durationMs].
  replace (now + d * 60 * 60 * 1000 - now) with (d * 60 * 60 * 1000) by lia.
  rewrite formatMs_whole_hours. split; intros Hd.
  - destruct (Z.ltb_spec (d * 60 * 60 * 1000) 0); [lia|].
    rewrite Z.abs_eq by lia. reflexivity.
  - destruct (Z.ltb_spec (d * 60 * 60 * 1000) 0); [|lia].
    rewrite Z.abs_neq by lia. reflexivity.
Qed.

(** X8 for two hours booked on P1 at the time 1000. *)
Lemma X8_new_booking_label_witness :
  exists bk,
    bookings (handleBook 1000 "Ann" "AB 123" 2 (openBooking lotP1 (freshState [lotP1])))
    = bookings (openBooking lotP1 (freshState [lotP1])) ++ [bk] /\
    (0 <= 2 -> timeLabel 1000 bk = "Sisa " +:+ pretty 2 +:+ "h 0m 0s") /\
    (2 < 0 -> timeLabel 1000 bk = "Overtime " +:+ pretty (- 2) +:+ "h 0m 0s").
Proof.
  apply (X8_new_booking_label 1000 "Ann" "AB 123" 2
           (openBooking lotP1 (freshState [lotP1])) lotP1).
  reflexivity.
Defined.

(** ** The page as a state machine *)

Lemma handleBook_slots now name plate d st :
  slots (handleBook now name plate d st) = slots st.
Proof. unfold handleBook. destruct (selectedSlot st); reflexivity. Qed.

Lemma endSession_slots confirmed id st :
  slots (endSession confirmed id st) = slots st.
Proof.
  unfold endSession. destruct confirmed; simpl; [|reflexivity].
  destruct (detailBooking st) as [d|]; [|reflexivity].
  destruct (decide (Booking.id d = id)); reflexivity.
Qed.

Lemma step_slots ev st st' : step ev st = Some st' -> slots st' = slots st.
Proof.
  intros Hstep.
  destruct ev; handled Hstep;
    auto using handleBook_slots, endSession_slots.
  match goal with
  | |- slots (match ?c with _ => _ end) = _ => destruct c; reflexivity
  end.
Qed.

(** An invariant of [step] is an invariant of [run]. *)
Lemma run_invariant (I : AppState -> Prop) :
  (forall ev st st', I st -> step ev st = Some st' -> I st') ->
  forall evs st st', I st -> run evs st = Some st' -> I st'.
Proof.
  intros Hstep evs. induction evs as [|ev evs IH]; intros st st' Hst Hrun;
    simpl in Hrun.
  - injection Hrun as <-. exact Hst.
  - destruct (step ev st) as [st1|] eqn:Estep; [|discriminate].
    simpl in Hrun. exact (IH st1 st' (Hstep _ _ _ Hst Estep) Hrun).
Qed.

Lemma run_slots evs st st' : run evs st = Some st' -> slots st' = slots st.
Proof.
  apply (run_invariant (fun x => slots x = slots st)); [|reflexivity].
  intros ev st1 st2 Hst1 Hstep. rewrite <- Hst1. exact (step_slots _ _ _ Hstep).
Qed.

(** X9. No event of the page adds, removes or changes a slot: the slot
    list at the end of a run is the one it started with. *)
Theorem X9_slots_never_change (evs : list Event) (st st' : AppState) :
  run evs st = Some st' -> slots st' = slots st.
Proof. apply run_slots. Qed.

(** X9 on a click, a submission and a tick. *)
Lemma X9_slots_never_change_witness :
  slots (mkApp [lotP1] [annP1] None false "" None) = slots (freshState [lotP1]).
Proof.
  apply (X9_slots_never_change [SlotClick 0; FormSubmit 1000 "Ann" "AB 123" 1; Tick]).
  vm_compute. reflexivity.
Defined.

(** X10. The booking list changes only on a submission of the form or
    on an end button whose confirmation is given: searches, clicks on
    slots, cancellations, detail buttons, declined confirmations and
    ticks leave it as it is. *)
Theorem X10_only_submit_and_end_change_bookings (ev : Event) (st st' : AppState) :
  step ev st = Some st' ->
  bookings st' = bookings st \/
  (exists now name plate d, ev = FormSubmit now name plate d) \/
  (exists i, ev = CardEnd i true) \/
  ev = DetailEnd true.
Proof.
  intros Hstep.
  destruct ev as [q|i|now name plate d| |i|i c|c| |]; handled Hstep;
    try (left; reflexivity).
  - left. match goal with
          | |- bookings (match ?c with _ => _ end) = _ => destruct c; reflexivity
          end.
  - right. left. eauto.
  - destruct c; [right; right; left; eauto|left; reflexivity].
  - destruct c; [right; right; right; reflexivity|left; reflexivity].
Qed.

(** X10 on a tick. *)
Lemma X10_only_submit_and_end_change_bookings_witness :
  bookings annShown = bookings annShown \/
  (exists now name plate d, Tick = FormSubmit now name plate d) \/
  (exists i, Tick = CardEnd i true) \/
  Tick = DetailEnd true.
Proof.
  apply (X10_only_submit_and_end_change_bookings Tick annShown annShown).
  reflexivity.
Defined.

(** X11. Two submissions in a row are never both handled, nor is a
    submission after a cancellation: the first closes the form, and a
    closed form raises no submission. *)
Theorem X11_no_second_submit
    (now now' : Z) (name plate name' plate' : string) (d d' : Z) (st : AppState) :
  run [FormSubmit now name plate d; FormSubmit now' name' plate' d'] st = None /\
  run [FormCancel; FormSubmit now' name' plate' d'] st = None.
Proof.
  simpl. unfold formShown, handleBook.
  destruct st as [sl bs [sel|] [|] q dt]; split; reflexivity.
Qed.

Lemma handleBook_openBooking now name plate d s st :
  bookings (handleBook now name plate d (openBooking s st)) =
  bookings st ++
  [Booking.mk ("B" +:+ pretty now) (Slot.id s) name plate now (d * 60 * 60 * 1000)].
Proof. reflexivity. Qed.

(** X12. The identifier of a booking is its creation time alone: two
    bookings created at the same clock reading, for whatever slots, share
    it, and ending one of them removes both. *)
Theorem X12_same_time_bookings_end_together
    (now : Z) (s1 s2 : Slot.t) (n1 p1 n2 p2 : string) (d1 d2 : Z) (st : AppState) :
  bookings
    (endSession true ("B" +:+ pretty now)
       (handleBook now n2 p2 d2 (openBooking s2
          (handleBook now n1 p1 d1 (openBooking s1 st)))))
  = filter (fun x => Booking.id x ≠ "B" +:+ pretty now) (bookings st).
Proof.
  rewrite endSession_bookings, !handleBook_openBooking.
  rewrite !filter_app, !filter_cons_False, !filter_nil, !app_nil_r;
    [reflexivity|intros H; apply H; reflexivity..].
Qed.

Lemma filter_keeps_all {A} (P : A -> Prop) `{!forall x, Decision (P x)} (l : list A) :
  Forall P l -> filter P l = l.
Proof.
  induction 1 as [|x l Hx _ IH]; [reflexivity|].
  rewrite filter_cons_True by exact Hx. f_equal. exact IH.
Qed.

(** X13. Booking a slot and ending that booking gives back the booking
    list, when no booking of the list was created at the same clock
    reading. *)
Theorem X13_book_then_end
    (now : Z) (s : Slot.t) (name plate : string) (d : Z) (st : AppState) :
  (forall x, x ∈ bookings st -> Booking.id x ≠ "B" +:+ pretty now) ->
  bookings
    (endSession true ("B" +:+ pretty now)
       (handleBook now name plate d (openBooking s st)))
  = bookings st.
Proof.
  intros Hfresh. rewrite endSession_bookings, handleBook_openBooking.
  rewrite filter_app, filter_cons_False, filter_nil, app_nil_r
    by (intros H; apply H; reflexivity).
  apply filter_keeps_all, Forall_forall. exact Hfresh.
Qed.

(** X13 on a lot where Ann parks since the time 1000, for a booking made
    at the time 2000. *)
Lemma X13_book_then_end_witness :
  bookings
    (endSession true ("B" +:+ pretty 2000)
       (handleBook 2000 "Bob" "CD 456" 1 (openBooking lotP1 annShown)))
  = bookings annShown.
Proof.
  apply (X13_book_then_end 2000 lotP1 "Bob" "CD 456" 1 annShown).
  intros x Hx. apply list_elem_of_singleton in Hx. rewrite Hx. discriminate.
Defined.

(** Apart from a submission, an event leaves the booking list or takes
    the bookings of one identifier out of it. *)
Lemma step_bookings_sublist ev st st' :
  step ev st = Some st' ->
  submitTimes [ev] = [] ->
  bookings st' `sublist_of` bookings st.
Proof.
  intros Hstep Hev.
  destruct ev as [q|i|now name plate d| |i|i c|c| |]; try discriminate Hev;
    handled Hstep; try reflexivity.
  - match goal with
    | |- bookings (match ?c with _ => _ end) `sublist_of` _ => destruct c; reflexivity
    end.
  - destruct c; [rewrite endSession_bookings; apply sublist_filter|reflexivity].
  - destruct c; [rewrite endSession_bookings; apply sublist_filter|reflexivity].
Qed.

Lemma stamped_sublist T st st' :
  bookings st' `sublist_of` bookings st -> stamped T st -> stamped T st'.
Proof.
  intros Hsub [Hnd Hst]. split.
  - eapply sublist_NoDup; [exact Hnd|]. apply fmap_sublist. exact Hsub.
  - intros b Hb. apply Hst. eapply elem_of_sublist; eassumption.
Qed.

Lemma stamped_handleBook T now name plate d st :
  now ∉ T -> stamped T st ->
  stamped (T ++ [now]) (handleBook now name plate d st).
Proof.
  intros Hnew [Hnd Hst]. unfold stamped.
  destruct (selectedSlot st) as [sel|] eqn:Esel.
  - rewrite (handleBook_bookings _ _ _ _ _ _ Esel). split.
    + rewrite fmap_app. apply NoDup_app. split; [exact Hnd|]. split.
      * intros x Hx Hx'. apply list_elem_of_singleton in Hx'.
        apply list_elem_of_fmap in Hx as (b & -> & Hb).
        destruct (Hst b Hb) as (t & Ht & Hid). rewrite Hid in Hx'.
        injection Hx' as Hx'. apply pretty_Z_inj in Hx'. congruence.
      * apply NoDup_singleton.
    + intros b Hb. apply elem_of_app in Hb as [Hb|Hb].
      * destruct (Hst b Hb) as (t & Ht & Hid). exists t.
        split; [apply elem_of_app; auto|exact Hid].
      * apply list_elem_of_singleton in Hb as ->. exists now.
        split; [apply elem_of_app; right; apply list_elem_of_here|reflexivity].
  - unfold handleBook. rewrite Esel. split; [exact Hnd|].
    intros b Hb. destruct (Hst b Hb) as (t & Ht & Hid). exists t.
    split; [apply elem_of_app; auto|exact Hid].
Qed.

Lemma run_stamped evs T st st' :
  run evs st = Some st' ->
  NoDup (T ++ submitTimes evs) ->
  stamped T st -> stamped (T ++ submitTimes evs) st'.
Proof.
  revert T st. induction evs as [|ev evs IH]; intros T st Hrun Hnd Hst.
  - simpl in *. injection Hrun as <-. rewrite app_nil_r. exact Hst.
  - simpl in Hrun. destruct (step ev st) as [st1|] eqn:Estep; [|discriminate].
    simpl in Hrun.
    destruct (submitTimes [ev]) as [|t ts] eqn:Eev.
    + assert (Htail : submitTimes (ev :: evs) = submitTimes evs)
        by (destruct ev; try reflexivity; discriminate Eev).
      rewrite Htail in *. apply (IH T st1 Hrun Hnd).
      eapply stamped_sublist; [|exact Hst].
      eapply step_bookings_sublist; eassumption.
    + destruct ev as [q|i|now name plate d| |i|i c|c| |]; try discriminate Eev.
      injection Eev as <- <-. cbn [submitTimes] in *.
      replace (T ++ now :: submitTimes evs) with ((T ++ [now]) ++ submitTimes evs) in *
        by (rewrite <- app_assoc; reflexivity).
      apply (IH _ st1 Hrun Hnd).
      simpl in Estep. destruct (formShown st); [|discriminate].
      injection Estep as <-. apply stamped_handleBook; [|exact Hst].
      apply NoDup_app in Hnd as [Hnd _]. apply NoDup_app in Hnd as (_ & Hno & _).
      intros Hin. apply (Hno now Hin), list_elem_of_here.
Qed.

(** X14. From a first run, when no two submissions of the form read the
    same clock value, the bookings of the list carry pairwise distinct
    identifiers. *)
Theorem X14_booking_ids_distinct
    (sl : list Slot.t) (evs : list Event) (st : AppState) :
  run evs (freshState sl) = Some st ->
  NoDup (submitTimes evs) ->
  NoDup (Booking.id <$> bookings st).
Proof.
  intros Hrun Hnd.
  destruct (run_stamped evs [] (freshState sl) st Hrun Hnd) as [Hids _].
  - split; [constructor|]. intros b Hb. apply elem_of_nil in Hb. contradiction.
  - exact Hids.
Qed.

(** X14 after one click on P1 and one submission at the time 1000. *)
Lemma X14_booking_ids_distinct_witness :
  NoDup (Booking.id <$> bookings (mkApp [lotP1] [annP1] None false "" None)).
Proof.
  apply (X14_booking_ids_distinct [lotP1]
           [SlotClick 0; FormSubmit 1000 "Ann" "AB 123" 1]).
  - vm_compute. reflexivity.
  - simpl. apply NoDup_singleton.
Defined.

Lemma slotStatusOf_elem bs sid b : slotStatusOf bs !! sid = Some b -> b ∈ bs.
Proof.
  intros Hb. apply slotStatusOf_Some in Hb as (pre & post & -> & _ & _).
  apply elem_of_app. right. apply list_elem_of_here.
Qed.

Lemma endSession_detailListed confirmed id st :
  detailListed st -> detailListed (endSession confirmed id st).
Proof.
  intros Hdl. destruct confirmed; [|exact Hdl].
  intros d Hd. rewrite endSession_bookings.
  unfold endSession in Hd. simpl in Hd.
  destruct (detailBooking st) as [d0|] eqn:Ed0;
    [|simpl in Hd; rewrite Ed0 in Hd; discriminate].
  destruct (decide (Booking.id d0 = id)) as [|Hne]; simpl in Hd; [discriminate|].
  rewrite Ed0 in Hd. injection Hd as <-.
  apply list_elem_of_filter. split; [exact Hne|]. apply Hdl. exact Ed0.
Qed.

Lemma handleBook_detailListed now name plate d st :
  detailListed st -> detailListed (handleBook now name plate d st).
Proof.
  intros Hdl. destruct (selectedSlot st) as [sel|] eqn:Esel.
  - intros d0 Hd0. rewrite (handleBook_bookings _ _ _ _ _ _ Esel).
    apply elem_of_app. left. apply Hdl.
    unfold handleBook in Hd0. rewrite Esel in Hd0. exact Hd0.
  - unfold handleBook. rewrite Esel. exact Hdl.
Qed.

Lemma step_detailListed ev st st' :
  detailListed st -> step ev st = Some st' -> detailListed st'.
Proof.
  intros Hdl Hstep.
  destruct ev as [q|i|now name plate d| |i|i c|c| |]; handled Hstep;
    auto using handleBook_detailListed, endSession_detailListed.
  - match goal with
    | |- detailListed (match slotStatus st !! ?sid with _ => _ end) =>
        destruct (slotStatus st !! sid) as [bk|] eqn:Estatus; [|exact Hdl]
    end.
    intros d [= <-]. apply (slotStatusOf_elem _ _ _ Estatus).
  - intros d [= <-]. eapply list_elem_of_lookup_2. eassumption.
  - intros d [=].
Qed.

(** X15. The detail card never shows a booking that has left the list:
    from a state where the booking shown, if any, is in the list, every
    run ends in such a state. *)
Theorem X15_detail_shows_listed_booking
    (evs : list Event) (st st' : AppState) (d : Booking.t) :
  detailListed st ->
  run evs st = Some st' ->
  detailBooking st' = Some d -> d ∈ bookings st'.
Proof.
  intros Hdl Hrun. revert d. change (detailListed st').
  exact (run_invariant detailListed step_detailListed evs st st' Hdl Hrun).
Qed.

(** X15 on the card of Ann opened from her slot, then a tick. *)
Lemma X15_detail_shows_listed_booking_witness :
  annP1 ∈ bookings annShown.
Proof.
  apply (X15_detail_shows_listed_booking [SlotClick 0; Tick]
           (mkApp [lotP1] [annP1] None false "" None) annShown annP1).
  - intros d Hd. discriminate Hd.
  - vm_compute. reflexivity.
  - reflexivity.
Defined.

Lemma filteredSlots_elem st s : s ∈ filteredSlots st -> s ∈ slots st.
Proof.
  unfold filteredSlots. rewrite !list_elem_of_In, filter_In. tauto.
Qed.

Lemma step_slotsExist ev st st' :
  slotsExist st -> step ev st = Some st' -> slotsExist st'.
Proof.
  intros [Hbs Hsel] Hstep.
  destruct ev as [q|i|now name plate d| |i|i c|c| |]; handled Hstep;
    try (split; assumption).
  - match goal with
    | H : filteredSlots st !! i = Some ?slot |- _ =>
        destruct (slotStatus st !! Slot.id slot); [split; assumption|];
        split; [exact Hbs|]; intros s [= <-];
        apply filteredSlots_elem; eapply list_elem_of_lookup_2; exact H
    end.
  - destruct (selectedSlot st) as [sel|] eqn:Esel.
    + split.
      * rewrite handleBook_slots, (handleBook_bookings _ _ _ _ _ _ Esel).
        intros b Hb. apply elem_of_app in Hb as [Hb|Hb]; [auto|].
        apply list_elem_of_singleton in Hb as ->. exists sel. auto.
      * unfold handleBook. rewrite Esel. simpl. discriminate.
    + unfold handleBook. rewrite Esel. split; [exact Hbs|].
      intros s Hs. rewrite Esel in Hs. discriminate.
  - split.
    + rewrite endSession_slots. intros b Hb. apply Hbs.
      destruct c; [|exact Hb].
      rewrite endSession_bookings in Hb. apply list_elem_of_filter in Hb. tauto.
    + rewrite endSession_slots, endSession_selectedSlot. exact Hsel.
  - split.
    + rewrite endSession_slots. intros b Hb. apply Hbs.
      destruct c; [|exact Hb].
      rewrite endSession_bookings in Hb. apply list_elem_of_filter in Hb. tauto.
    + rewrite endSession_slots, endSession_selectedSlot. exact Hsel.
Qed.

(** X16. From a first run, every booking of the list references a slot
    of the lot: a booking is only ever created for a slot that was drawn
    and clicked. *)
Theorem X16_bookings_reference_slots
    (sl : list Slot.t) (evs : list Event) (st : AppState) (b : Booking.t) :
  run evs (freshState sl) = Some st ->
  b ∈ bookings st ->
  exists s, s ∈ sl /\ Slot.id s = Booking.slotId b.
Proof.
  intros Hrun.
  assert (H0 : slotsExist (freshState sl)).
  { split; [intros x Hx; apply elem_of_nil in Hx; contradiction|discriminate]. }
  destruct (run_invariant slotsExist step_slotsExist evs _ _ H0 Hrun) as [Hbs _].
  rewrite (run_slots _ _ _ Hrun) in Hbs. apply Hbs.
Qed.

(** X16 after one click on P1 and one submission. *)
Lemma X16_bookings_reference_slots_witness :
  exists s, s ∈ [lotP1] /\ Slot.id s = Booking.slotId annP1.
Proof.
  apply (X16_bookings_reference_slots [lotP1]
           [SlotClick 0; FormSubmit 1000 "Ann" "AB 123" 1]
           (mkApp [lotP1] [annP1] None false "" None) annP1).
  - vm_compute. reflexivity.
  - apply list_elem_of_here.
Defined.

Lemma references_zero sid bs :
  references sid bs = 0%nat -> slotStatusOf bs !! sid = None.
Proof.
  intros Hzero. apply slotStatusOf_None. unfold references in Hzero.
  induction bs as [|x bs IH]; [constructor|].
  rewrite filter_cons in Hzero.
  destruct (decide (Booking.slotId x = sid)); [discriminate|].
  constructor; [assumption|exact (IH Hzero)].
Qed.

Lemma slotStatusOf_size bs :
  (forall sid, (references sid bs <= 1)%nat) ->
  size (slotStatusOf bs) = length bs.
Proof.
  induction bs as [|b bs IH] using rev_ind; intros Hone.
  - reflexivity.
  - rewrite slotStatusOf_snoc, length_app, Nat.add_1_r.
    rewrite map_size_insert_None.
    + f_equal. apply IH. intros sid. specialize (Hone sid).
      rewrite references_snoc in Hone. lia.
    + apply references_zero. specialize (Hone (Booking.slotId b)).
      rewrite references_snoc in Hone.
      destruct (decide (Booking.slotId b = Booking.slotId b)); [lia|congruence].
Qed.

(** X17. From a first run, the status projection has one entry for each
    booking of the list: as many slots are drawn occupied as there are
    cards in the list panel. *)
Theorem X17_one_entry_per_booking
    (sl : list Slot.t) (evs : list Event) (st : AppState) :
  run evs (freshState sl) = Some st ->
  size (slotStatus st) = length (bookings st).
Proof.
  intros Hrun.
  destruct (run_wellBooked evs _ _ (freshState_wellBooked sl) Hrun) as [Hone _].
  apply slotStatusOf_size. exact Hone.
Qed.

(** X17 after one click on P1 and one submission. *)
Lemma X17_one_entry_per_booking_witness :
  size (slotStatus (mkApp [lotP1] [annP1] None false "" None))
  = length (bookings (mkApp [lotP1] [annP1] None false "" None)).
Proof.
  apply (X17_one_entry_per_booking [lotP1]
           [SlotClick 0; FormSubmit 1000 "Ann" "AB 123" 1]).
  vm_compute. reflexivity.
Defined.

(** ** Reloading *)

Lemma initSlots_persist rand st (storage : Storage) :
  initSlots rand (persist st storage) = initSlots rand storage.
Proof.
  unfold initSlots, persist.
  rewrite lookup_insert_ne by exact storage_keys_differ. reflexivity.
Qed.

Lemma initBookings_persist st (storage : Storage) :
  initBookings (persist st storage) = Some (bookings st).
Proof.
  unfold initBookings, persist. rewrite lookup_insert_eq.
  apply parseBookings_stringifyBookings.
Qed.

Lemma initSlots_stored rand rand' (storage : Storage) :
  is_Some (storage !! STORAGE_KEY_SLOTS) ->
  initSlots rand' storage = initSlots rand storage.
Proof. unfold initSlots. intros [raw ->]. reflexivity. Qed.

(** X18. A reload after a session always mounts: the page starts with
    the booking list of the session, in the order of the list, with the
    form and the detail card closed, and leaves the store as it found it.
    The slot list is the one of the session when the store holds a slot
    list, and a newly generated grid of 4 rows and 6 columns when it does
    not. *)
Theorem X18_reload
    (rand rand' : nat -> Q) (evs : list Event) (storage storage' : Storage)
    (st : AppState) :
  session rand evs storage = Some (st, storage') ->
  exists st2,
    session rand' [] storage' = Some (st2, storage') /\
    bookings st2 = bookings st /\
    selectedSlot st2 = None /\ showForm st2 = false /\ detailBooking st2 = None /\
    (is_Some (storage !! STORAGE_KEY_SLOTS) -> slots st2 = slots st) /\
    (storage !! STORAGE_KEY_SLOTS = None -> slots st2 = makeDefaultSlots rand' 4 6).
Proof.
  unfold session. intros Hs.
  destruct (initState rand storage) as [st0|] eqn:E0; [|discriminate]. simpl in Hs.
  destruct (run evs st0) as [st1|] eqn:Er; [|discriminate]. simpl in Hs.
  injection Hs as <- <-.
  unfold initState in E0.
  destruct (initSlots rand storage) as [sl0|] eqn:Esl; [|discriminate].
  simpl in E0.
  destruct (initBookings storage) as [b0|]; [|discriminate].
  injection E0 as <-. apply run_slots in Er. simpl in Er.
  assert (Hsome : exists sl2, initSlots rand' storage = Some sl2 /\
            (is_Some (storage !! STORAGE_KEY_SLOTS) -> sl2 = sl0) /\
            (storage !! STORAGE_KEY_SLOTS = None -> sl2 = makeDefaultSlots rand' 4 6)).
  { destruct (storage !! STORAGE_KEY_SLOTS) as [raw|] eqn:Eraw.
    - exists sl0. split; [|split; [reflexivity|discriminate]].
      rewrite <- Esl. unfold initSlots. rewrite Eraw. reflexivity.
    - exists (makeDefaultSlots rand' 4 6). unfold initSlots. rewrite Eraw.
      split; [reflexivity|]. split; [intros [? [=]]|reflexivity]. }
  destruct Hsome as (sl2 & Hsl2 & Hkept & Hnew).
  exists (mkApp sl2 (bookings st1) None false "" None).
  unfold initState. rewrite initSlots_persist, Hsl2, initBookings_persist. simpl.
  split.
  - f_equal. f_equal. unfold persist. simpl. apply insert_insert_eq.
  - repeat split; try reflexivity.
    + intros Hk. rewrite (Hkept Hk). symmetry. exact Er.
    + exact Hnew.
Qed.

(** X18 on a session of one booking started from the empty store. *)
Lemma X18_reload_witness :
  exists st2,
    session drawsLow []
      (persist (mkApp (makeDefaultSlots drawsHigh 4 6) [annP1] None false "" None) ∅)
    = Some (st2,
            persist (mkApp (makeDefaultSlots drawsHigh 4 6) [annP1] None false "" None) ∅) /\
    bookings st2 = [annP1] /\
    selectedSlot st2 = None /\ showForm st2 = false /\ detailBooking st2 = None /\
    (is_Some ((∅ : Storage) !! STORAGE_KEY_SLOTS) ->
     slots st2 = makeDefaultSlots drawsHigh 4 6) /\
    ((∅ : Storage) !! STORAGE_KEY_SLOTS = None ->
     slots st2 = makeDefaultSlots drawsLow 4 6).
Proof.
  apply (X18_reload drawsHigh drawsLow
           [SlotClick 0; FormSubmit 1000 "Ann" "AB 123" 1] ∅
           (persist (mkApp (makeDefaultSlots drawsHigh 4 6) [annP1] None false "" None) ∅)
           (mkApp (makeDefaultSlots drawsHigh 4 6) [annP1] None false "" None)).
  vm_compute. reflexivity.
Defined.

(** ** Refining and retyping a search *)

Lemma append_assoc (a b c : string) : (a +:+ b) +:+ c = a +:+ (b +:+ c).
Proof.
  induction a as [|x a IH]; [reflexivity|].
  change (String x ((a +:+ b) +:+ c) = String x (a +:+ (b +:+ c))).
  f_equal. exact IH.
Qed.

Lemma occursIn_part q pre post s :
  occursIn (pre +:+ q +:+ post) s -> occursIn q s.
Proof.
  intros (u & v & ->). exists (u +:+ pre), (post +:+ v).
  rewrite !append_assoc. reflexivity.
Qed.

(** X19. Narrowing the query narrows the result: a slot kept for a
    query [q] is kept for every query [q'] that, in lower case, is a part
    of [q] in lower case. *)
Theorem X19_longer_query_keeps_fewer (q q' : string) (st : AppState) (s : Slot.t) :
  occursIn (toLowerCase q') (toLowerCase q) ->
  s ∈ filteredSlots (setQuery q st) ->
  s ∈ filteredSlots (setQuery q' st).
Proof.
  intros (pre & post & Hq). rewrite !filteredSlots_spec, Hq.
  intros [Hin Hkeep]. split; [exact Hin|].
  destruct Hkeep as [Hid|(b & Hb & [Hplate|Hname])].
  - left. exact (occursIn_part _ _ _ _ Hid).
  - right. exists b. split; [exact Hb|]. left. exact (occursIn_part _ _ _ _ Hplate).
  - right. exists b. split; [exact Hb|]. right. exact (occursIn_part _ _ _ _ Hname).
Qed.

(** X19 on the plate of Ann: found by "AB 1", hence by "b". *)
Lemma X19_longer_query_keeps_fewer_witness :
  lotP1 ∈ filteredSlots (setQuery "b" annShown).
Proof.
  apply (X19_longer_query_keeps_fewer "AB 1" "b" annShown lotP1).
  - exists "a", " 1". reflexivity.
  - vm_compute. apply list_elem_of_here.
Defined.

Lemma lowerChar_idemp c : lowerChar (lowerChar c) = lowerChar c.
Proof. destruct c as [[] [] [] [] [] [] [] []]; reflexivity. Qed.

Lemma toLowerCase_idemp s : toLowerCase (toLowerCase s) = toLowerCase s.
Proof.
  induction s as [|c s IH]; simpl; [reflexivity|].
  rewrite lowerChar_idemp, IH. reflexivity.
Qed.

(** X20. The case of the query does not matter: a query and the same
    query typed in lower case return the same slots. *)
Theorem X20_query_case_ignored (q : string) (st : AppState) :
  filteredSlots (setQuery (toLowerCase q) st) = filteredSlots (setQuery q st).
Proof.
  unfold filteredSlots, matchesQuery. simpl.
  rewrite toLowerCase_idemp. reflexivity.
Qed.
